(** * SLURM cluster environment: rendezvous address, port and rank resolution

    A shallow embedding of
    [pytorch_lightning/plugins/environments/slurm_environment.py]
    (class [SLURMEnvironment]) and the properties of it that the specification
    of the rendezvous resolver states.

    Python strings are Rocq strings over 8-bit characters, read as the code
    points U+0000 to U+00FF.  Python integers are [Z].  [os.environ] is a
    finite map from names to values, and the module logger is the list of the
    messages handed to [log.debug].

    Two things are left out.  [os.environ[k] = v] is a plain insertion: the
    values it is given here are pieces of values already in the environment
    or printed integers, which [putenv] accepts.  [int()] has no bound on the
    number of digits, as in the interpreters the class was written for. *)

From Stdlib Require Import ZArith Ascii String List Bool Lia.
From Stdlib Require Import Decimal DecimalString DecimalPos DecimalZ.
From stdpp Require Import base option gmap strings.

Local Open Scope string_scope.
Local Open Scope Z_scope.

(** ** Exceptions and outcomes *)

(** The exceptions the modelled code can raise, with the data Python attaches
    to them: [KeyError] carries the missing key; the [ValueError] of [int()]
    carries the offending literal ("invalid literal for int() with base 10:
    <repr of the literal>"); unpacking a sequence of the wrong length is a
    [ValueError] of its own; [IndexError] comes from [seq[0]]. *)
Inductive exception : Type :=
| KeyError (key : string)
| ValueError (literal : string)
| UnpackError
| IndexError.

Inductive outcome (A : Type) : Type :=
| Return (a : A)
| Raise (e : exception).

Arguments Return {A} a.
Arguments Raise {A} e.

Definition obind {A B : Type} (o : outcome A) (k : A -> outcome B)
  : outcome B :=
  match o with
  | Return a => k a
  | Raise e => Raise e
  end.

Declare Scope outcome_scope.
Delimit Scope outcome_scope with outcome.
Notation "'do' x <- m ; k" := (obind m (fun x => k))
  (at level 10, x name, m at level 100, k at level 200) : outcome_scope.

Definition returns {A : Type} (o : outcome A) : bool :=
  match o with
  | Return _ => true
  | Raise _ => false
  end.

(** ** Python string primitives *)

Module Py.

(** [c in s] for a one-character string [c]. *)
Fixpoint contains (c : ascii) (s : string) : bool :=
  match s with
  | EmptyString => false
  | String a s' => if Ascii.eqb a c then true else contains c s'
  end.

Definition cons_head (c : ascii) (l : list string) : list string :=
  match l with
  | [] => [String c EmptyString]
  | t :: ts => String c t :: ts
  end.

(** [s.split(sep, maxsplit)] for a one-character separator; [maxsplit] is
    [None] when the argument is left out (Python's -1: no limit).  The
    result is never empty: [''.split(',')] is [['']]. *)
Fixpoint split (sep : ascii) (maxsplit : option nat) (s : string)
  : list string :=
  match s with
  | EmptyString => [EmptyString]
  | String c s' =>
      match maxsplit with
      | Some O => [s]
      | _ =>
          if Ascii.eqb c sep
          then EmptyString :: split sep (Nat.pred <$> maxsplit) s'
          else cons_head c (split sep maxsplit s')
      end
  end.

(** [s.partition(c)[0]]: the text before the first [c], all of [s] when
    [c] does not occur. *)
Fixpoint before (c : ascii) (s : string) : string :=
  match s with
  | EmptyString => EmptyString
  | String a s' => if Ascii.eqb a c then EmptyString else String a (before c s')
  end.

(** [s.partition(c)[2]]: the text after the first [c], empty when [c] does
    not occur. *)
Fixpoint after (c : ascii) (s : string) : string :=
  match s with
  | EmptyString => EmptyString
  | String a s' => if Ascii.eqb a c then s' else after c s'
  end.

(** [seq[0]] *)
Definition item0 (l : list string) : outcome string :=
  match l with
  | [] => Raise IndexError
  | x :: _ => Return x
  end.

(** [a, b = seq] *)
Definition unpack2 (l : list string) : outcome (string * string) :=
  match l with
  | [a; b] => Return (a, b)
  | _ => Raise UnpackError
  end.

Definition is_digit (c : ascii) : bool :=
  let n := nat_of_ascii c in
  ((48 <=? n) && (n <=? 57))%nat.

(** [re.sub] of the class [[^0-9]] by the empty string: every character
    that is not an ASCII digit is
    replaced by the empty string. *)
Fixpoint sub_non_digits (s : string) : string :=
  match s with
  | EmptyString => EmptyString
  | String c s' =>
      if is_digit c then String c (sub_non_digits s') else sub_non_digits s'
  end.

(** Truth value of a string: non-empty. *)
Definition truthy (s : string) : bool :=
  match s with
  | EmptyString => false
  | String _ _ => true
  end.

Fixpoint drop (n : nat) (s : string) : string :=
  match n, s with
  | O, _ => s
  | S _, EmptyString => EmptyString
  | S n', String _ s' => drop n' s'
  end.

(** [s[-n:]] for [n > 0]: the last [n] characters, the whole string when it
    is shorter. *)
Definition last_chars (n : nat) (s : string) : string :=
  drop (String.length s - n) s.

(** Whitespace as [int()] sees it on code points below 256: TAB to CR and
    the space, which the integer parser skips itself, and NEL and NBSP, the
    two Unicode spaces of this range, which are turned into spaces before
    parsing.  (FS to US are whitespace for [str.isspace] and not for
    [int()].) *)
Definition is_space (c : ascii) : bool :=
  let n := nat_of_ascii c in
  (((9 <=? n) && (n <=? 13)) || (n =? 32) || (n =? 133) || (n =? 160))%nat.

Fixpoint lstrip (s : string) : string :=
  match s with
  | EmptyString => EmptyString
  | String c s' => if is_space c then lstrip s' else s
  end.

Fixpoint rstrip (s : string) : string :=
  match s with
  | EmptyString => EmptyString
  | String c s' =>
      match rstrip s' with
      | EmptyString => if is_space c then EmptyString else String c EmptyString
      | r => String c r
      end
  end.

Definition strip (s : string) : string := rstrip (lstrip s).

Definition digit_value (c : ascii) : Z := Z.of_nat (nat_of_ascii c) - 48.

(** The digit part of a base-10 literal: decimal digits, a single
    underscore allowed between two digits.  [after_digit] tells whether the
    previous character was a digit. *)
Fixpoint digits_value (s : string) (acc : Z) (after_digit : bool)
  : option Z :=
  match s with
  | EmptyString => if after_digit then Some acc else None
  | String c s' =>
      if Ascii.eqb c "_"
      then if after_digit then digits_value s' acc false else None
      else if is_digit c
           then digits_value s' (10 * acc + digit_value c) true
           else None
  end.

(** The value of [int(s)] when [s] is a valid literal: surrounding
    whitespace is dropped, then an optional sign, then the digits. *)
Definition int_literal (s : string) : option Z :=
  match strip s with
  | String "+" r => digits_value r 0 false
  | String "-" r => Z.opp <$> digits_value r 0 false
  | t => digits_value t 0 false
  end.

(** [int(s)] on a string. *)
Definition int_of_str (s : string) : outcome Z :=
  match int_literal s with
  | Some z => Return z
  | None => Raise (ValueError s)
  end.

(** [str(n)] on an integer. *)
Definition str_of_int (z : Z) : string :=
  NilEmpty.string_of_int (Z.to_int z).

(** A value that is a string or an integer, for a variable the code
    rebinds from one to the other. *)
Inductive value : Type :=
| Str (s : string)
| Int (z : Z).

(** [int(v)]: the identity on an integer, parsing on a string. *)
Definition int (v : value) : outcome Z :=
  match v with
  | Str s => int_of_str s
  | Int z => Return z
  end.

End Py.

(** ** The process state and its monad *)

Record World : Type := mkWorld {
  environ : gmap string string;
  debug_log : list string
}.

(** A computation reads and writes the world and returns or raises; the world
    it leaves behind is kept in both cases. *)
Definition py (A : Type) : Type := World -> outcome A * World.

Definition ret {A : Type} (a : A) : py A := fun w => (Return a, w).

Definition bind {A B : Type} (m : py A) (k : A -> py B) : py B :=
  fun w =>
    match m w with
    | (Return a, w') => k a w'
    | (Raise e, w') => (Raise e, w')
    end.

Definition lift {A : Type} (o : outcome A) : py A := fun w => (o, w).

Declare Scope py_scope.
Delimit Scope py_scope with py.
Notation "'do' x <- m ; k" := (bind m (fun x => k))
  (at level 10, x name, m at level 100, k at level 200) : py_scope.

(** [os.environ.get(name)] *)
Definition environ_get (name : string) : py (option string) :=
  fun w => (Return (environ w !! name), w).

(** [os.environ[name]] *)
Definition environ_getitem (name : string) : py string :=
  fun w =>
    match environ w !! name with
    | Some v => (Return v, w)
    | None => (Raise (KeyError name), w)
    end.

(** [name in os.environ] *)
Definition environ_contains (name : string) : py bool :=
  fun w => (Return (bool_decide (is_Some (environ w !! name))), w).

(** [os.environ[name] = v] *)
Definition environ_setitem (name v : string) : py unit :=
  fun w =>
    (Return tt,
     {| environ := <[name := v]> (environ w); debug_log := debug_log w |}).

(** [log.debug(msg)] *)
Definition log_debug (msg : string) : py unit :=
  fun w =>
    (Return tt,
     {| environ := environ w; debug_log := debug_log w ++ [msg] |}).

(** ** The SLURM environment *)

Local Open Scope py_scope.

(** [SLURMEnvironment.creates_children] *)
Definition creates_children : py bool := ret true.

(** [SLURMEnvironment.resolve_root_node_address]; it reads no state. *)
Definition resolve_root_node_address (root_node : string) : outcome string :=
  (if Py.contains "[" root_node then
     do parts <- Py.unpack2 (Py.split "[" (Some 1%nat) root_node);
     let '(name, numbers) := parts in
     do number <- Py.item0 (Py.split "," (Some 1%nat) numbers);
     do number <-
       (if Py.contains "-" number
        then Py.item0 (Py.split "-" None number)
        else Return number);
     let number := Py.sub_non_digits number in
     Return (name +:+ number)
   else Return root_node)%outcome.

(** [SLURMEnvironment.master_address] *)
Definition master_address : py string :=
  do slurm_nodelist <- environ_get "SLURM_NODELIST";
  do root_node <-
    match slurm_nodelist with
    | Some l =>
        if Py.truthy l then
          do first <- lift (Py.item0 (Py.split " " None l));
          lift (Py.item0 (Py.split "," None first))
        else ret "127.0.0.1"
    | None => ret "127.0.0.1"
    end;
  do root_node <- lift (resolve_root_node_address root_node);
  do _ <- environ_setitem "MASTER_ADDR" root_node;
  do published <- environ_getitem "MASTER_ADDR";
  do _ <- log_debug ("MASTER_ADDR: " +:+ published);
  ret root_node.

(** [SLURMEnvironment.master_port] *)
Definition master_port : py Z :=
  do default_port <- environ_get "SLURM_JOB_ID";
  do default_port <-
    match default_port with
    | Some job_id =>
        if Py.truthy job_id then
          let default_port := Py.last_chars 4 job_id in
          do n <- lift (Py.int_of_str default_port);
          ret (n + 15000)
        else ret 12910
    | None => ret 12910
    end;
  do user_passed <- environ_contains "MASTER_PORT";
  do default_port <-
    (if user_passed : bool then
       do p <- environ_getitem "MASTER_PORT";
       ret (Py.Str p)
     else
       do _ <- environ_setitem "MASTER_PORT" (Py.str_of_int default_port);
       ret (Py.Int default_port));
  do published <- environ_getitem "MASTER_PORT";
  do _ <- log_debug ("MASTER_PORT: " +:+ published);
  lift (Py.int default_port).

(** [int(os.environ[name])], the body of the four rank and size readers. *)
Definition int_of_environ (name : string) : py Z :=
  do v <- environ_getitem name;
  lift (Py.int_of_str v).

(** [SLURMEnvironment.world_size] *)
Definition world_size : py Z := int_of_environ "SLURM_NTASKS".

(** [SLURMEnvironment.set_world_size] *)
Definition set_world_size (size : Z) : py unit :=
  log_debug
    "SLURMEnvironment.set_world_size was called, but setting world size is not allowed. Ignored.".

(** [SLURMEnvironment.global_rank] *)
Definition global_rank : py Z := int_of_environ "SLURM_PROCID".

(** [SLURMEnvironment.set_global_rank] *)
Definition set_global_rank (rank : Z) : py unit :=
  log_debug
    "SLURMEnvironment.set_global_rank was called, but setting global rank is not allowed. Ignored.".

(** [SLURMEnvironment.local_rank] *)
Definition local_rank : py Z := int_of_environ "SLURM_LOCALID".

(** [SLURMEnvironment.node_rank] *)
Definition node_rank : py Z := int_of_environ "SLURM_NODEID".

(** The identity of a process.  The source has one reader per field and no
    function that collects them; [resolve_identity] calls the four readers in
    the order in which the specification lists their variables. *)
Record JobIdentity : Type := mkJobIdentity {
  globalRank : Z;
  localRank : Z;
  nodeRank : Z;
  worldSize : Z
}.

Definition resolve_identity : py JobIdentity :=
  do n <- world_size;
  do g <- global_rank;
  do l <- local_rank;
  do d <- node_rank;
  ret {| globalRank := g; localRank := l; nodeRank := d; worldSize := n |}.

Definition identity_invariant (i : JobIdentity) : Prop :=
  0 <= globalRank i /\ 0 <= localRank i /\ 0 <= nodeRank i /\
  0 < worldSize i /\ globalRank i < worldSize i.

(** A world with the given variables and an empty log. *)
Definition world_of (l : list (string * string)) : World :=
  {| environ := list_to_map l; debug_log := [] |}.

(** ** Functions of the environment used in the statements *)

(** The address [resolve_root_node_address] computes. *)
Definition root_node_address (root_node : string) : string :=
  if Py.contains "[" root_node
  then Py.before "[" root_node +:+
       Py.sub_non_digits
         (Py.before "-" (Py.before "," (Py.after "[" root_node)))
  else root_node.

(** The node [master_address] hands to [resolve_root_node_address]. *)
Definition selected_node (vars : gmap string string) : string :=
  match vars !! "SLURM_NODELIST" with
  | Some l =>
      if Py.truthy l then Py.before "," (Py.before " " l) else "127.0.0.1"
  | None => "127.0.0.1"
  end.

(** The port [master_port] derives from the job id, before it looks at
    [MASTER_PORT]. *)
Definition job_id_port (vars : gmap string string) : outcome Z :=
  match vars !! "SLURM_JOB_ID" with
  | Some job_id =>
      if Py.truthy job_id
      then (do n <- Py.int_of_str (Py.last_chars 4 job_id);
            Return (n + 15000))%outcome
      else Return 12910
  | None => Return 12910
  end.

Definition is_int_literal (s : string) : bool :=
  match Py.int_literal s with
  | Some _ => true
  | None => false
  end.

(** The job id lets [master_port] derive a port: it is absent, empty, or its
    last four characters are an integer literal. *)
Definition job_id_usable (vars : gmap string string) : bool :=
  match vars !! "SLURM_JOB_ID" with
  | Some job_id =>
      if Py.truthy job_id then is_int_literal (Py.last_chars 4 job_id)
      else true
  | None => true
  end.

(** [MASTER_PORT] is absent or an integer literal. *)
Definition master_port_usable (vars : gmap string string) : bool :=
  match vars !! "MASTER_PORT" with
  | Some p => is_int_literal p
  | None => true
  end.

(** The four readers with the variable each one reads. *)
Definition identity_readers : list (string * py Z) :=
  [("SLURM_NTASKS", world_size); ("SLURM_PROCID", global_rank);
   ("SLURM_LOCALID", local_rank); ("SLURM_NODEID", node_rank)].

(** The message of an exception, with the key or the literal itself where
    Python prints its repr. *)
Definition exception_text (e : exception) : string :=
  match e with
  | KeyError key => key
  | ValueError literal =>
      "invalid literal for int() with base 10: " +:+ literal
  | UnpackError => "not enough values to unpack (expected 2, got 1)"
  | IndexError => "list index out of range"
  end.

Fixpoint occurs (needle hay : string) : bool :=
  String.prefix needle hay ||
  match hay with
  | EmptyString => false
  | String _ hay' => occurs needle hay'
  end.

(** The exception names the variable: the name occurs in its text. *)
Definition names_variable (e : exception) (name : string) : bool :=
  occurs name (exception_text e).

(** The value of a variable read as an integer, when it is there and is
    one. *)
Definition parsed (vars : gmap string string) (name : string) : option Z :=
  match vars !! name with
  | Some v => Py.int_literal v
  | None => None
  end.

(** [int(os.environ[name])] as a function of the environment. *)
Definition read_int (vars : gmap string string) (name : string) : outcome Z :=
  match vars !! name with
  | Some v => Py.int_of_str v
  | None => Raise (KeyError name)
  end.

(** What [resolve_identity] returns, as a function of the environment. *)
Definition identity_of (vars : gmap string string) : outcome JobIdentity :=
  (do n <- read_int vars "SLURM_NTASKS";
   do g <- read_int vars "SLURM_PROCID";
   do l <- read_int vars "SLURM_LOCALID";
   do d <- read_int vars "SLURM_NODEID";
   Return {| globalRank := g; localRank := l; nodeRank := d;
             worldSize := n |})%outcome.

(** Every character is a decimal digit. *)
Fixpoint all_digits (s : string) : bool :=
  match s with
  | EmptyString => true
  | String c s' => Py.is_digit c && all_digits s'
  end.

(** ** The algorithms as the specification words them *)

Module Spec.

(** Step 2: the text between the first opening bracket and the closing
    bracket that follows it; what comes after the closing bracket is left
    out. *)
Definition rangeBody (raw : string) : string :=
  Py.before "]" (Py.after "[" raw).

(** Steps 1 to 6 of [resolveRootNodeAddress]. *)
Definition resolveRootNodeAddress (raw : string) : string :=
  if Py.contains "[" raw then
    let prefix := Py.before "[" raw in
    let token := Py.before "," (rangeBody raw) in
    let lower := Py.before "-" token in
    prefix +:+ Py.sub_non_digits lower
  else raw.

(** [resolveAddress]: the first whitespace-separated token of the node
    list (the source separates at the space character), its first
    comma-separated sub-token, then [resolveRootNodeAddress]; the loopback
    address when the variable is absent. *)
Definition resolveAddress (vars : gmap string string) : string :=
  match vars !! "SLURM_NODELIST" with
  | Some l => resolveRootNodeAddress (Py.before "," (Py.before " " l))
  | None => "127.0.0.1"
  end.

(** [resolvePort]: the explicit override first, then the job id, then the
    default. *)
Definition resolvePort (vars : gmap string string) : outcome Z :=
  match vars !! "MASTER_PORT" with
  | Some p => Py.int_of_str p
  | None =>
      match vars !! "SLURM_JOB_ID" with
      | Some job_id =>
          (do n <- Py.int_of_str (Py.last_chars 4 job_id);
           Return (n + 15000))%outcome
      | None => Return 12910
      end
  end.

End Spec.

(** ** Splitting *)

Section Splitting.

Variable sep : ascii.

Lemma split_cons (maxsplit : option nat) (s : string) :
  maxsplit <> Some O ->
  exists rest, Py.split sep maxsplit s = Py.before sep s :: rest.
Proof.
  revert maxsplit; induction s as [|c s IH]; intros m Hm.
  - exists []. reflexivity.
  - assert (Hstep : Py.split sep m (String c s) =
                    if Ascii.eqb c sep
                    then EmptyString :: Py.split sep (Nat.pred <$> m) s
                    else Py.cons_head c (Py.split sep m s)).
    { destruct m as [[|n]|]; [congruence | reflexivity | reflexivity]. }
    rewrite Hstep; simpl. destruct (Ascii.eqb c sep).
    + eexists; reflexivity.
    + destruct (IH m Hm) as [rest ->]. exists rest. reflexivity.
Qed.

Lemma item0_split (maxsplit : option nat) (s : string) :
  maxsplit <> Some O ->
  Py.item0 (Py.split sep maxsplit s) = Return (Py.before sep s).
Proof.
  intros Hm. destruct (split_cons maxsplit s Hm) as [rest ->]. reflexivity.
Qed.

Lemma split_once (s : string) :
  Py.contains sep s = true ->
  Py.split sep (Some 1%nat) s = [Py.before sep s; Py.after sep s].
Proof.
  induction s as [|c s IH]; simpl; [discriminate|].
  destruct (Ascii.eqb c sep).
  - intros _. destruct s; reflexivity.
  - intros H. rewrite (IH H). reflexivity.
Qed.

Lemma before_no_sep (s : string) :
  Py.contains sep s = false -> Py.before sep s = s.
Proof.
  induction s as [|c s IH]; simpl; [reflexivity|].
  destruct (Ascii.eqb c sep); [discriminate|].
  intros H. rewrite (IH H). reflexivity.
Qed.

Lemma contains_app (a b : string) :
  Py.contains sep (a +:+ String sep b) = true.
Proof.
  induction a as [|c a IH]; simpl; [now rewrite Ascii.eqb_refl|].
  now destruct (Ascii.eqb c sep).
Qed.

Lemma before_app (a b : string) :
  Py.contains sep a = false -> Py.before sep (a +:+ String sep b) = a.
Proof.
  induction a as [|c a IH]; simpl; [now rewrite Ascii.eqb_refl|].
  destruct (Ascii.eqb c sep); [discriminate|].
  intros H. now rewrite (IH H).
Qed.

Lemma after_app (a b : string) :
  Py.contains sep a = false -> Py.after sep (a +:+ String sep b) = b.
Proof.
  induction a as [|c a IH]; simpl; [now rewrite Ascii.eqb_refl|].
  destruct (Ascii.eqb c sep); [discriminate | exact IH].
Qed.

End Splitting.

(** The closed form of [resolve_root_node_address]: it never raises, and the
    range body it works on is everything after the first opening bracket. *)
Lemma resolve_root_node_address_eq (root_node : string) :
  resolve_root_node_address root_node =
  Return (if Py.contains "[" root_node
          then Py.before "[" root_node +:+
               Py.sub_non_digits
                 (Py.before "-" (Py.before "," (Py.after "[" root_node)))
          else root_node).
Proof.
  unfold resolve_root_node_address.
  destruct (Py.contains "[" root_node) eqn:Hb; [|reflexivity].
  rewrite (split_once _ _ Hb). cbn [Py.unpack2 obind].
  rewrite item0_split by discriminate. cbn [obind].
  destruct (Py.contains "-" (Py.before "," (Py.after "[" root_node))) eqn:Hd.
  - rewrite item0_split by discriminate. reflexivity.
  - cbn [obind]. rewrite (before_no_sep _ _ Hd). reflexivity.
Qed.

Lemma lower_bound_digits_closing_bracket (body : string) :
  Py.sub_non_digits (Py.before "-" (Py.before "," (body +:+ "]"))) =
  Py.sub_non_digits (Py.before "-" (Py.before "," body)).
Proof.
  induction body as [|c body IH]; [reflexivity|].
  simpl. destruct (Ascii.eqb c ","); [reflexivity|].
  simpl. destruct (Ascii.eqb c "-"); [reflexivity|].
  simpl. now rewrite IH.
Qed.

(** On a name that ends with its bracketed group the source and the
    algorithm of the specification agree. *)
Lemma resolve_root_node_address_closed_group (prefix body : string) :
  Py.contains "[" prefix = false ->
  Py.contains "]" body = false ->
  resolve_root_node_address (prefix +:+ String "[" (body +:+ "]")) =
  Return (Spec.resolveRootNodeAddress (prefix +:+ String "[" (body +:+ "]"))).
Proof.
  intros Hp Hb. rewrite resolve_root_node_address_eq.
  unfold Spec.resolveRootNodeAddress, Spec.rangeBody.
  rewrite contains_app, (before_app _ _ _ Hp), (after_app _ _ _ Hp).
  rewrite (before_app _ _ _ Hb), lower_bound_digits_closing_bracket.
  reflexivity.
Qed.

(** ** Printing and reading integers *)

Lemma digit_not_space (c : ascii) :
  Py.is_digit c = true -> Py.is_space c = false.
Proof.
  unfold Py.is_digit, Py.is_space. intros H.
  apply andb_true_iff in H as [H1 H2].
  apply Nat.leb_le in H1, H2.
  repeat (apply orb_false_iff; split).
  - apply andb_false_iff; right. apply Nat.leb_gt. lia.
  - apply Nat.eqb_neq. lia.
  - apply Nat.eqb_neq. lia.
  - apply Nat.eqb_neq. lia.
Qed.

Lemma rstrip_all_digits (s : string) :
  all_digits s = true -> Py.rstrip s = s.
Proof.
  induction s as [|c s IH]; simpl; [reflexivity|].
  intros H. apply andb_true_iff in H as [Hc Hs].
  rewrite (IH Hs), (digit_not_space c Hc). destruct s; reflexivity.
Qed.

Lemma string_of_uint_all_digits (d : uint) :
  all_digits (NilEmpty.string_of_uint d) = true.
Proof. induction d; simpl; auto. Qed.

Lemma digits_value_of_uint_acc (d : uint) (acc : positive) :
  Py.digits_value (NilEmpty.string_of_uint d) (Z.pos acc) true =
  Some (Z.pos (Pos.of_uint_acc d acc)).
Proof.
  revert acc; induction d; intros acc; simpl; [reflexivity|..];
    match goal with
    | |- Py.digits_value _ ?v true = Some (Z.pos (Pos.of_uint_acc _ ?q)) =>
        replace v with (Z.pos q);
        [apply IHd |
         match goal with
         | |- context [Py.digit_value ?c] =>
             let n := eval vm_compute in (Py.digit_value c) in
             change (Py.digit_value c) with n
         end; lia]
    end.
Qed.

Lemma digits_value_of_uint (d : uint) :
  Py.digits_value (NilEmpty.string_of_uint d) 0 true =
  Some (Z.of_N (Pos.of_uint d)).
Proof.
  induction d; simpl; [reflexivity | exact IHd | ..];
    apply (digits_value_of_uint_acc d).
Qed.

Lemma strip_all_digits (s : string) :
  all_digits s = true -> Py.strip s = s.
Proof.
  intros H. unfold Py.strip.
  replace (Py.lstrip s) with s; [now apply rstrip_all_digits|].
  destruct s as [|c s]; [reflexivity|]. simpl in *.
  apply andb_true_iff in H as [Hc _]. now rewrite (digit_not_space c Hc).
Qed.

Lemma strip_minus_digits (s : string) :
  all_digits s = true -> s <> EmptyString ->
  Py.strip (String "-" s) = String "-" s.
Proof.
  intros H Hs. unfold Py.strip.
  change (Py.lstrip (String "-" s)) with (String "-" s).
  cbn [Py.rstrip]. rewrite (rstrip_all_digits s H).
  destruct s; [congruence | reflexivity].
Qed.

Lemma string_of_uint_nonempty (d : uint) :
  d <> Nil -> NilEmpty.string_of_uint d <> EmptyString.
Proof. destruct d; [congruence | discriminate ..]. Qed.

Lemma digits_value_start (d : uint) :
  d <> Nil ->
  Py.digits_value (NilEmpty.string_of_uint d) 0 false =
  Some (Z.of_N (Pos.of_uint d)).
Proof.
  intros Hd. rewrite <- digits_value_of_uint.
  destruct d; [congruence | reflexivity ..].
Qed.

Lemma int_literal_of_uint (d : uint) :
  d <> Nil ->
  Py.int_literal (NilEmpty.string_of_uint d) = Some (Z.of_N (Pos.of_uint d)).
Proof.
  intros Hd. unfold Py.int_literal.
  rewrite (strip_all_digits _ (string_of_uint_all_digits d)).
  rewrite <- (digits_value_start d Hd).
  destruct d; [congruence | reflexivity ..].
Qed.

Lemma int_literal_minus_uint (d : uint) :
  d <> Nil ->
  Py.int_literal (String "-" (NilEmpty.string_of_uint d)) =
  Some (- Z.of_N (Pos.of_uint d)).
Proof.
  intros Hd. unfold Py.int_literal.
  rewrite (strip_minus_digits _ (string_of_uint_all_digits d)
             (string_of_uint_nonempty d Hd)).
  now rewrite (digits_value_start d Hd).
Qed.

(** Reading back what [str] printed gives the integer again. *)
Lemma int_literal_str_of_int (z : Z) :
  Py.int_literal (Py.str_of_int z) = Some z.
Proof.
  destruct z as [|p|p]; [reflexivity | ..]; unfold Py.str_of_int; simpl.
  - rewrite int_literal_of_uint by apply DecimalPos.Unsigned.to_uint_nonnil.
    now rewrite DecimalPos.Unsigned.of_to.
  - rewrite int_literal_minus_uint
      by apply DecimalPos.Unsigned.to_uint_nonnil.
    now rewrite DecimalPos.Unsigned.of_to.
Qed.

(** ** Running the methods *)

Lemma master_address_run (w : World) :
  let r := root_node_address (selected_node (environ w)) in
  master_address w =
  (Return r,
   {| environ := <["MASTER_ADDR" := r]> (environ w);
      debug_log := debug_log w ++ ["MASTER_ADDR: " +:+ r] |}).
Proof.
  unfold master_address, selected_node, root_node_address.
  unfold bind at 1. unfold environ_get at 1.
  assert (Hsel :
    forall v : World,
      (match environ w !! "SLURM_NODELIST" with
       | Some l =>
           if Py.truthy l
           then do first <- lift (Py.item0 (Py.split " " None l));
                lift (Py.item0 (Py.split "," None first))
           else ret "127.0.0.1"
       | None => ret "127.0.0.1"
       end) v =
      (Return (selected_node (environ w)), v)).
  { intros v. unfold selected_node.
    destruct (environ w !! "SLURM_NODELIST") as [l|]; [|reflexivity].
    destruct (Py.truthy l); [|reflexivity].
    unfold bind, lift. rewrite item0_split by discriminate.
    rewrite item0_split by discriminate. reflexivity. }
  unfold bind at 1. rewrite Hsel.
  unfold bind at 1. unfold lift at 1.
  rewrite resolve_root_node_address_eq.
  unfold bind, environ_setitem, environ_getitem, log_debug, ret; simpl.
  rewrite lookup_insert_eq. reflexivity.
Qed.

Lemma master_port_run (w : World) :
  master_port w =
  match job_id_port (environ w) with
  | Raise e => (Raise e, w)
  | Return d =>
      match environ w !! "MASTER_PORT" with
      | Some p =>
          (Py.int_of_str p,
           {| environ := environ w;
              debug_log := debug_log w ++ ["MASTER_PORT: " +:+ p] |})
      | None =>
          (Return d,
           {| environ := <["MASTER_PORT" := Py.str_of_int d]> (environ w);
              debug_log :=
                debug_log w ++ ["MASTER_PORT: " +:+ Py.str_of_int d] |})
      end
  end.
Proof.
  unfold master_port, job_id_port.
  unfold bind at 1. unfold environ_get at 1.
  assert (Hjob :
    forall v : World,
      (match environ w !! "SLURM_JOB_ID" with
       | Some job_id =>
           if Py.truthy job_id
           then let default_port := Py.last_chars 4 job_id in
                do n <- lift (Py.int_of_str default_port); ret (n + 15000)
           else ret 12910
       | None => ret 12910
       end) v =
      (job_id_port (environ w), v)).
  { intros v. unfold job_id_port.
    destruct (environ w !! "SLURM_JOB_ID") as [j|]; [|reflexivity].
    destruct (Py.truthy j); [|reflexivity].
    unfold bind, lift, ret; cbn zeta.
    destruct (Py.int_of_str (Py.last_chars 4 j)); reflexivity. }
  unfold bind at 1. rewrite Hjob. unfold job_id_port.
  match goal with
  | |- context [match ?o with Return _ => _ | Raise _ => _ end] =>
      destruct o as [d|e] eqn:Hd
  end; [|reflexivity].
  unfold bind, environ_contains, environ_setitem, environ_getitem,
    log_debug, ret, lift; simpl.
  destruct (environ w !! "MASTER_PORT") as [p|] eqn:Hp.
  - rewrite bool_decide_eq_true_2 by eauto. simpl. rewrite !Hp. reflexivity.
  - rewrite bool_decide_eq_false_2 by (intros [? ?]; discriminate).
    simpl. rewrite lookup_insert_eq. reflexivity.
Qed.

Lemma int_of_environ_run (name : string) (w : World) :
  int_of_environ name w =
  (match environ w !! name with
   | Some v => Py.int_of_str v
   | None => Raise (KeyError name)
   end, w).
Proof.
  unfold int_of_environ, bind, environ_getitem, lift.
  destruct (environ w !! name); reflexivity.
Qed.

(** ** Root node address *)

(** C1, counterexample: on ["node[5]7"] the source returns ["node57"], since
    it never cuts the range body at the closing bracket; the algorithm of the
    specification, which leaves out what follows the bracket, gives
    ["node5"]. *)
Lemma resolve_root_node_address_keeps_trailing_digits :
  resolve_root_node_address "node[5]7" = Return "node57" /\
  Spec.resolveRootNodeAddress "node[5]7" = "node5" /\
  resolve_root_node_address "node[5]7" <>
  Return (Spec.resolveRootNodeAddress "node[5]7").
Proof. repeat split. discriminate. Qed.

(** C1, amended: for every input string, [resolve_root_node_address] returns
    the input unchanged when it has no opening bracket; otherwise it returns
    the prefix before the first opening bracket followed by the digit
    characters of the lower bound (the part before the first dash) of the
    first comma-separated token of the range body, where the range body is
    all the text after the first opening bracket: the closing bracket and
    what follows it are not cut off.  The three examples of the
    specification hold. *)
Theorem resolve_root_node_address_algorithm :
  (forall root_node : string,
     resolve_root_node_address root_node =
     Return
       (if Py.contains "[" root_node
        then Py.before "[" root_node +:+
             Py.sub_non_digits
               (Py.before "-" (Py.before "," (Py.after "[" root_node)))
        else root_node)) /\
  resolve_root_node_address "node[05-07]" = Return "node05" /\
  resolve_root_node_address "node[5,9,12]" = Return "node5" /\
  resolve_root_node_address "node[05-07,09]" = Return "node05".
Proof.
  split; [exact resolve_root_node_address_eq | repeat split].
Qed.

(** ** Address *)

(** C3, counterexample: with the node list present and empty the source
    returns the loopback address, whereas the first token of the empty string
    resolves to the empty string. *)
Lemma master_address_empty_node_list :
  fst (master_address (world_of [("SLURM_NODELIST", EmptyString)])) =
  Return "127.0.0.1" /\
  Spec.resolveAddress (environ (world_of [("SLURM_NODELIST", EmptyString)])) =
  EmptyString.
Proof. split; vm_compute; reflexivity. Qed.

(** C3, amended: for every context in which the node list is present and not
    empty, [master_address] returns the result of applying
    [resolve_root_node_address] to the first comma-separated sub-token of the
    text before the first space character of the node list; for every
    context in which the node list is absent or empty it returns
    ["127.0.0.1"]. *)
Theorem master_address_selects_first_node (w : World) :
  fst (master_address w) =
  match environ w !! "SLURM_NODELIST" with
  | Some l =>
      if Py.truthy l
      then resolve_root_node_address (Py.before "," (Py.before " " l))
      else Return "127.0.0.1"
  | None => Return "127.0.0.1"
  end.
Proof.
  rewrite master_address_run; cbn [fst]. unfold selected_node.
  destruct (environ w !! "SLURM_NODELIST") as [l|]; [|reflexivity].
  destruct (Py.truthy l); [|reflexivity].
  now rewrite resolve_root_node_address_eq.
Qed.

(** Only the space character separates: a tab stays in the token. *)
Example master_address_tab_is_kept :
  fst (master_address
         (world_of [("SLURM_NODELIST", String (ascii_of_nat 9) "n1 n2")])) =
  Return (String (ascii_of_nat 9) "n1").
Proof. vm_compute; reflexivity. Qed.

Lemma selected_node_insert_master_addr (vars : gmap string string) (v : string) :
  selected_node (<["MASTER_ADDR" := v]> vars) = selected_node vars.
Proof. unfold selected_node. now rewrite lookup_insert_ne. Qed.

(** C9: [master_address] is deterministic and idempotent: on identical
    environments two calls return the same address, and a second call made
    after the first (which has written [MASTER_ADDR]) returns the same
    address again and leaves the environment as the first call left it. *)
Theorem master_address_idempotent (w w' : World) :
  environ w' = environ w ->
  fst (master_address w') = fst (master_address w) /\
  fst (master_address (snd (master_address w))) = fst (master_address w) /\
  environ (snd (master_address (snd (master_address w)))) =
  environ (snd (master_address w)).
Proof.
  intros He. rewrite !master_address_run; cbn [fst snd environ].
  rewrite He, !selected_node_insert_master_addr, insert_insert_eq.
  repeat split.
Qed.

(** The node list of the specification, resolved twice. *)
Lemma master_address_idempotent_witness :
  fst (master_address
         (snd (master_address (world_of [("SLURM_NODELIST", "node[05-07]")]))))
  = fst (master_address (world_of [("SLURM_NODELIST", "node[05-07]")])).
Proof.
  exact (proj1 (proj2
    (master_address_idempotent
       (world_of [("SLURM_NODELIST", "node[05-07]")])
       (world_of [("SLURM_NODELIST", "node[05-07]")]) eq_refl))).
Defined.

(** ** Children *)

(** C10: [creates_children] returns [True] in every context, and changes
    nothing. *)
Theorem creates_children_always_true (w : World) :
  creates_children w = (Return true, w).
Proof. reflexivity. Qed.

(** ** Port *)

Lemma returns_int_of_str (s : string) :
  returns (Py.int_of_str s) = is_int_literal s.
Proof.
  unfold Py.int_of_str, is_int_literal. destruct (Py.int_literal s); reflexivity.
Qed.

Lemma returns_job_id_port (vars : gmap string string) :
  returns (job_id_port vars) = job_id_usable vars.
Proof.
  unfold job_id_port, job_id_usable.
  destruct (vars !! "SLURM_JOB_ID") as [j|]; [|reflexivity].
  destruct (Py.truthy j); [|reflexivity].
  rewrite <- returns_int_of_str.
  destruct (Py.int_of_str (Py.last_chars 4 j)); reflexivity.
Qed.

(** C2, counterexample: with [MASTER_PORT] set to ["6000"] and a job id that
    is not a number the source raises, because it derives the port of the job
    id before it looks at [MASTER_PORT]; the three-level priority gives
    6000. *)
Lemma master_port_reads_job_id_first :
  fst (master_port
         (world_of [("SLURM_JOB_ID", "abcd"); ("MASTER_PORT", "6000")])) =
  Raise (ValueError "abcd") /\
  Spec.resolvePort
    (environ (world_of [("SLURM_JOB_ID", "abcd"); ("MASTER_PORT", "6000")])) =
  Return 6000.
Proof. split; vm_compute; reflexivity. Qed.

(** C2, amended: for every context whose job id is absent, empty, or ends in
    four characters (the whole string when it is shorter) that are an integer
    literal: if [MASTER_PORT] is present the result is its parsed integer
    value, whatever the job id (6000 for ["6000"]); otherwise, if the job id
    is present and not empty, the result is the integer parsed from its last
    four characters plus 15000; otherwise, the job id being absent or empty,
    the result is 12910. *)
Theorem master_port_priority (w : World) :
  job_id_usable (environ w) = true ->
  fst (master_port w) =
  match environ w !! "MASTER_PORT" with
  | Some p => Py.int_of_str p
  | None =>
      match environ w !! "SLURM_JOB_ID" with
      | Some job_id =>
          if Py.truthy job_id
          then (do n <- Py.int_of_str (Py.last_chars 4 job_id);
                Return (n + 15000))%outcome
          else Return 12910
      | None => Return 12910
      end
  end.
Proof.
  intros Hj. rewrite master_port_run.
  rewrite <- returns_job_id_port in Hj.
  fold (job_id_port (environ w)).
  destruct (job_id_port (environ w)) as [d|e]; [|discriminate].
  destruct (environ w !! "MASTER_PORT"); reflexivity.
Qed.

(** An override next to a numeric job id. *)
Lemma master_port_priority_witness :
  fst (master_port
         (world_of [("SLURM_JOB_ID", "123456789"); ("MASTER_PORT", "6000")])) =
  Return 6000.
Proof.
  exact (eq_trans
    (master_port_priority
       (world_of [("SLURM_JOB_ID", "123456789"); ("MASTER_PORT", "6000")])
       eq_refl)
    eq_refl).
Defined.

Example master_port_of_long_job_id :
  fst (master_port (world_of [("SLURM_JOB_ID", "123456789")])) = Return 21789.
Proof. vm_compute; reflexivity. Qed.

Example master_port_of_short_job_id :
  fst (master_port (world_of [("SLURM_JOB_ID", "7")])) = Return 15007.
Proof. vm_compute; reflexivity. Qed.

Example master_port_default :
  fst (master_port (world_of [])) = Return 12910.
Proof. vm_compute; reflexivity. Qed.

Example master_port_of_empty_job_id :
  fst (master_port (world_of [("SLURM_JOB_ID", EmptyString)])) = Return 12910.
Proof. vm_compute; reflexivity. Qed.

(** C6, counterexample: [master_port] raises when [MASTER_PORT] is not a
    number. *)
Lemma master_port_raises_on_text :
  fst (master_port (world_of [("MASTER_PORT", "abc")])) =
  Raise (ValueError "abc").
Proof. vm_compute; reflexivity. Qed.

(** C6, amended: [master_address] returns a value in every context.
    [master_port] returns a value exactly in the contexts where the job id is
    absent, empty or ends in an integer literal and [MASTER_PORT] is absent
    or an integer literal; in every other context it raises [ValueError]:
    that of the last four characters of the job id when these are not an
    integer literal, and otherwise that of the value of [MASTER_PORT]. *)
Theorem address_and_port_failures (w : World) :
  returns (fst (master_address w)) = true /\
  returns (fst (master_port w)) =
  job_id_usable (environ w) && master_port_usable (environ w) /\
  (returns (fst (master_port w)) = false ->
   exists literal, fst (master_port w) = Raise (ValueError literal)) /\
  (job_id_usable (environ w) = false ->
   exists job_id,
     environ w !! "SLURM_JOB_ID" = Some job_id /\
     fst (master_port w) = Raise (ValueError (Py.last_chars 4 job_id))) /\
  (job_id_usable (environ w) = true ->
   master_port_usable (environ w) = false ->
   exists port,
     environ w !! "MASTER_PORT" = Some port /\
     fst (master_port w) = Raise (ValueError port)).
Proof.
  split; [now rewrite master_address_run|].
  rewrite master_port_run.
  unfold job_id_usable, master_port_usable, job_id_port, is_int_literal,
    Py.int_of_str.
  destruct (environ w !! "SLURM_JOB_ID") as [j|]; cbn [obind];
    [destruct (Py.truthy j);
     [destruct (Py.int_literal (Py.last_chars 4 j)) as [n|]|]|];
    cbn [obind fst returns andb];
    try (destruct (environ w !! "MASTER_PORT") as [p|];
         [destruct (Py.int_literal p)|]; cbn [fst returns andb]);
    repeat split; try discriminate; intros; eauto.
Qed.

(** A job id that ends in letters. *)
Lemma address_and_port_failures_witness :
  exists job_id,
    environ (world_of [("SLURM_JOB_ID", "12ab34cd")]) !! "SLURM_JOB_ID" =
    Some job_id /\
    fst (master_port (world_of [("SLURM_JOB_ID", "12ab34cd")])) =
    Raise (ValueError (Py.last_chars 4 job_id)).
Proof.
  exact (proj1 (proj2 (proj2 (proj2
    (address_and_port_failures (world_of [("SLURM_JOB_ID", "12ab34cd")])))))
    eq_refl).
Defined.

(** C8: when [master_port] returns [p], the [MASTER_PORT] entry of the
    environment parses to [p]: it is written, as [str(p)], when it was
    absent, and when it was present the environment is left as it was; every
    other entry is unchanged. *)
Theorem master_port_publishes (w w' : World) (p : Z) :
  master_port w = (Return p, w') ->
  (exists s, environ w' !! "MASTER_PORT" = Some s /\
             Py.int_literal s = Some p) /\
  (forall name, name <> "MASTER_PORT" ->
                environ w' !! name = environ w !! name) /\
  (environ w !! "MASTER_PORT" = None ->
   environ w' !! "MASTER_PORT" = Some (Py.str_of_int p)) /\
  (is_Some (environ w !! "MASTER_PORT") -> environ w' = environ w).
Proof.
  rewrite master_port_run.
  destruct (job_id_port (environ w)) as [d|e]; [|discriminate].
  destruct (environ w !! "MASTER_PORT") as [s|] eqn:Hs.
  - intros [= Hp <-]; cbn [environ]. repeat split.
    + exists s. split; [assumption|]. unfold Py.int_of_str in Hp.
      destruct (Py.int_literal s); congruence.
    + discriminate.
  - intros [= <- <-]; cbn [environ]. repeat split.
    + exists (Py.str_of_int d). rewrite lookup_insert_eq.
      split; [reflexivity | apply int_literal_str_of_int].
    + intros name Hn. now rewrite lookup_insert_ne.
    + intros _. apply lookup_insert_eq.
    + intros [? ?]; discriminate.
Qed.

(** The port derived from job id 7 is written back as its decimal text. *)
Lemma master_port_publishes_witness :
  environ (snd (master_port (world_of [("SLURM_JOB_ID", "7")])))
    !! "MASTER_PORT" = Some (Py.str_of_int 15007).
Proof.
  exact (proj1 (proj2 (proj2
    (master_port_publishes
       (world_of [("SLURM_JOB_ID", "7")])
       (snd (master_port (world_of [("SLURM_JOB_ID", "7")])))
       15007 eq_refl))) eq_refl).
Defined.

(** ** Identity *)

Lemma identity_reader_run (name : string) (reader : py Z) (w : World) :
  In (name, reader) identity_readers ->
  reader w =
  (match environ w !! name with
   | Some v => Py.int_of_str v
   | None => Raise (KeyError name)
   end, w).
Proof.
  intros H. repeat (destruct H as [[= <- <-] | H];
                    [apply int_of_environ_run|]).
  destruct H.
Qed.






(** A value that contains the name of its variable. *)
Example value_error_can_name_variable :
  fst (world_size (world_of [("SLURM_NTASKS", "SLURM_NTASKS")])) =
  Raise (ValueError "SLURM_NTASKS") /\
  names_variable (ValueError "SLURM_NTASKS") "SLURM_NTASKS" = true.
Proof. split; vm_compute; reflexivity. Qed.


Lemma resolve_identity_run (w : World) :
  resolve_identity w = (identity_of (environ w), w).
Proof.
  unfold resolve_identity, world_size, global_rank, local_rank, node_rank,
    bind, ret, identity_of, read_int.
  rewrite !int_of_environ_run.
  repeat match goal with
         | |- context [environ w !! ?k] => destruct (environ w !! k)
         | |- context [Py.int_of_str ?v] => destruct (Py.int_of_str v)
         end; reflexivity.
Qed.

(** C5, counterexample: with [SLURM_NTASKS] 1 and [SLURM_PROCID] 5 the
    identity is resolved and its global rank is not below its world size. *)
Lemma resolve_identity_unchecked :
  fst (resolve_identity
         (world_of [("SLURM_NTASKS", "1"); ("SLURM_PROCID", "5");
                    ("SLURM_LOCALID", "0"); ("SLURM_NODEID", "0")])) =
  Return {| globalRank := 5; localRank := 0; nodeRank := 0; worldSize := 1 |}
  /\ ~ identity_invariant
         {| globalRank := 5; localRank := 0; nodeRank := 0; worldSize := 1 |}.
Proof.
  split; [vm_compute; reflexivity|].
  unfold identity_invariant; simpl. lia.
Qed.

(** C5, amended: for every context from which an identity is resolved, each
    field is the integer parsed from its variable (the world size from
    [SLURM_NTASKS], the global rank from [SLURM_PROCID], the local rank from
    [SLURM_LOCALID], the node rank from [SLURM_NODEID]) and nothing is
    checked: the invariant (global rank below world size, ranks not
    negative, world size positive) holds on the result exactly when the
    values of the variables satisfy it. *)
Theorem resolve_identity_reads_variables (w : World) (i : JobIdentity) :
  fst (resolve_identity w) = Return i ->
  parsed (environ w) "SLURM_NTASKS" = Some (worldSize i) /\
  parsed (environ w) "SLURM_PROCID" = Some (globalRank i) /\
  parsed (environ w) "SLURM_LOCALID" = Some (localRank i) /\
  parsed (environ w) "SLURM_NODEID" = Some (nodeRank i) /\
  (identity_invariant i <->
   exists n g l d,
     parsed (environ w) "SLURM_NTASKS" = Some n /\
     parsed (environ w) "SLURM_PROCID" = Some g /\
     parsed (environ w) "SLURM_LOCALID" = Some l /\
     parsed (environ w) "SLURM_NODEID" = Some d /\
     0 <= g /\ 0 <= l /\ 0 <= d /\ 0 < n /\ g < n).
Proof.
  unfold resolve_identity, world_size, global_rank, local_rank, node_rank,
    bind, ret, parsed.
  rewrite !int_of_environ_run. unfold Py.int_of_str.
  destruct (environ w !! "SLURM_NTASKS") as [sn|]; [|discriminate].
  destruct (Py.int_literal sn) as [n|]; [|discriminate].
  destruct (environ w !! "SLURM_PROCID") as [sg|]; [|discriminate].
  destruct (Py.int_literal sg) as [g|]; [|discriminate].
  destruct (environ w !! "SLURM_LOCALID") as [sl|]; [|discriminate].
  destruct (Py.int_literal sl) as [l|]; [|discriminate].
  destruct (environ w !! "SLURM_NODEID") as [sd|]; [|discriminate].
  destruct (Py.int_literal sd) as [d|]; [|discriminate].
  cbn [fst]. intros [= <-]. cbn [worldSize globalRank localRank nodeRank].
  do 4 (split; [reflexivity|]).
  unfold identity_invariant; simpl. split.
  - intros (? & ? & ? & ? & ?). exists n, g, l, d. repeat split; assumption.
  - intros (n' & g' & l' & d' & [= <-] & [= <-] & [= <-] & [= <-] & H). lia.
Qed.

(** The identity of the specification's example satisfies the invariant
    because the values of its variables do. *)
Lemma resolve_identity_reads_variables_witness :
  identity_invariant
    {| globalRank := 2; localRank := 0; nodeRank := 1; worldSize := 4 |}.
Proof.
  apply (proj2 (proj2 (proj2 (proj2
    (resolve_identity_reads_variables
       (world_of [("SLURM_NTASKS", "4"); ("SLURM_PROCID", "2");
                  ("SLURM_LOCALID", "0"); ("SLURM_NODEID", "1")])
       {| globalRank := 2; localRank := 0; nodeRank := 1; worldSize := 4 |}
       eq_refl))))).
  exists 4, 2, 0, 1. repeat split; lia.
Defined.

(** ** Setters *)

(** C7: [set_world_size] and [set_global_rank] never raise and, for every
    context and every value, leave the environment as it is, adding one
    message to the debug log; the identity resolved after the call is the
    identity resolved before it, and so are the address and the port. *)
Theorem setters_change_nothing (w : World) (value : Z) :
  let after_size := snd (set_world_size value w) in
  let after_rank := snd (set_global_rank value w) in
  fst (set_world_size value w) = Return tt /\
  fst (set_global_rank value w) = Return tt /\
  environ after_size = environ w /\
  environ after_rank = environ w /\
  (exists msg, debug_log after_size = (debug_log w ++ [msg])%list) /\
  (exists msg, debug_log after_rank = (debug_log w ++ [msg])%list) /\
  fst (resolve_identity after_size) = fst (resolve_identity w) /\
  fst (resolve_identity after_rank) = fst (resolve_identity w) /\
  fst (master_address after_size) = fst (master_address w) /\
  fst (master_port after_size) = fst (master_port w).
Proof.
  cbn zeta. rewrite !resolve_identity_run, !master_address_run, !master_port_run.
  unfold set_world_size, set_global_rank, log_debug; cbn [fst snd environ].
  repeat split; try (eexists; reflexivity).
  destruct (job_id_port (environ w)); [|reflexivity].
  destruct (environ w !! "MASTER_PORT"); reflexivity.
Qed.

(** * Further properties of the class *)

(** ** Characters of the resolved address *)

Section Characters.

Variable c : ascii.

Lemma contains_append (a b : string) :
  Py.contains c (a +:+ b) = Py.contains c a || Py.contains c b.
Proof.
  induction a as [|x a IH]; simpl; [reflexivity|].
  now destruct (Ascii.eqb x c).
Qed.

Lemma contains_before_self (s : string) :
  Py.contains c (Py.before c s) = false.
Proof.
  induction s as [|x s IH]; simpl; [reflexivity|].
  destruct (Ascii.eqb x c) eqn:E; simpl; [reflexivity | now rewrite E].
Qed.

Lemma contains_before (d : ascii) (s : string) :
  Py.contains c s = false -> Py.contains c (Py.before d s) = false.
Proof.
  induction s as [|x s IH]; simpl; [reflexivity|].
  destruct (Ascii.eqb x c) eqn:E; [discriminate|].
  intros H. destruct (Ascii.eqb x d); simpl; [reflexivity|].
  now rewrite E, IH.
Qed.

Lemma contains_sub_non_digits (s : string) :
  Py.is_digit c = false -> Py.contains c (Py.sub_non_digits s) = false.
Proof.
  intros Hc. induction s as [|x s IH]; simpl; [reflexivity|].
  destruct (Py.is_digit x) eqn:Hx; [|exact IH]. simpl.
  destruct (Ascii.eqb_spec x c) as [->|_]; [congruence | exact IH].
Qed.

Lemma contains_all_digits (s : string) :
  Py.is_digit c = false -> all_digits s = true -> Py.contains c s = false.
Proof.
  intros Hc. induction s as [|x s IH]; simpl; [reflexivity|].
  intros H. apply andb_true_iff in H as [Hx Hs].
  destruct (Ascii.eqb_spec x c) as [->|_]; [congruence | exact (IH Hs)].
Qed.

Lemma before_append (a b : string) :
  Py.contains c a = false -> Py.before c (a +:+ b) = a +:+ Py.before c b.
Proof.
  induction a as [|x a IH]; simpl; [reflexivity|].
  destruct (Ascii.eqb x c); [discriminate|].
  intros H. now rewrite (IH H).
Qed.

(** What [resolve_root_node_address] returns has the character only if its
    argument has it, as long as the character is not a digit. *)
Lemma contains_root_node_address (s : string) :
  Py.is_digit c = false -> Py.contains c s = false ->
  Py.contains c (root_node_address s) = false.
Proof.
  intros Hc Hs. unfold root_node_address.
  destruct (Py.contains "[" s); [|exact Hs].
  rewrite contains_append, (contains_before _ _ Hs).
  now rewrite contains_sub_non_digits.
Qed.

End Characters.

Lemma sub_non_digits_all_digits (s : string) :
  all_digits s = true -> Py.sub_non_digits s = s.
Proof.
  induction s as [|x s IH]; simpl; [reflexivity|].
  intros H. apply andb_true_iff in H as [Hx Hs]. now rewrite Hx, (IH Hs).
Qed.

Lemma root_node_address_no_bracket (s : string) :
  Py.contains "[" (root_node_address s) = false.
Proof.
  unfold root_node_address. destruct (Py.contains "[" s) eqn:Hs; [|exact Hs].
  rewrite contains_append, contains_before_self.
  now rewrite contains_sub_non_digits.
Qed.

(** X1: [resolve_root_node_address] is idempotent: resolving an address it
    has returned gives that address back, since no opening bracket is left
    in it. *)
Theorem resolve_root_node_address_idempotent (root_node : string) :
  (do resolved <- resolve_root_node_address root_node;
   resolve_root_node_address resolved)%outcome =
  resolve_root_node_address root_node.
Proof.
  rewrite (resolve_root_node_address_eq root_node).
  fold (root_node_address root_node). cbn [obind].
  rewrite resolve_root_node_address_eq.
  now rewrite root_node_address_no_bracket.
Qed.

(** X2: on a name whose bracketed group starts with a run of digits followed
    by a dash or a comma, [resolve_root_node_address] returns the prefix
    followed by exactly these digits, leading zeros included, whatever
    comes after the separator. *)
Theorem resolve_root_node_address_lower_bound
    (prefix lower rest : string) (sep : ascii) :
  Py.contains "[" prefix = false ->
  all_digits lower = true ->
  sep = "-"%char \/ sep = ","%char ->
  resolve_root_node_address (prefix +:+ String "[" (lower +:+ String sep rest))
  = Return (prefix +:+ lower).
Proof.
  intros Hp Hl Hsep. rewrite resolve_root_node_address_eq.
  rewrite contains_app, (before_app _ _ _ Hp), (after_app _ _ _ Hp).
  assert (Hc : Py.contains "," lower = false)
    by (apply contains_all_digits; [reflexivity | assumption]).
  assert (Hd : Py.contains "-" lower = false)
    by (apply contains_all_digits; [reflexivity | assumption]).
  destruct Hsep as [-> | ->].
  - rewrite (before_append _ _ _ Hc).
    change (Py.before "," (String "-" rest))
      with (String "-" (Py.before "," rest)).
    rewrite (before_app _ _ _ Hd). now rewrite sub_non_digits_all_digits.
  - rewrite (before_app _ _ _ Hc), (before_no_sep _ _ Hd).
    now rewrite sub_non_digits_all_digits.
Qed.

(** A zero-padded range. *)
Lemma resolve_root_node_address_lower_bound_witness :
  resolve_root_node_address "host[007-120,200]" = Return "host007".
Proof.
  exact (resolve_root_node_address_lower_bound
           "host" "007" "120,200]" "-" eq_refl eq_refl (or_introl eq_refl)).
Defined.

(** ** More on the address *)

Lemma selected_node_single_token (vars : gmap string string) :
  Py.contains " " (selected_node vars) = false /\
  Py.contains "," (selected_node vars) = false.
Proof.
  unfold selected_node.
  destruct (vars !! "SLURM_NODELIST") as [l|]; [|split; reflexivity].
  destruct (Py.truthy l); [|split; reflexivity]. split.
  - apply contains_before, contains_before_self.
  - apply contains_before_self.
Qed.

(** X3: [master_address] returns in every context, and the address it
    returns has no space, no comma and no opening bracket in it. *)
Theorem master_address_single_host (w : World) :
  exists address,
    fst (master_address w) = Return address /\
    Py.contains " " address = false /\
    Py.contains "," address = false /\
    Py.contains "[" address = false.
Proof.
  exists (root_node_address (selected_node (environ w))).
  rewrite master_address_run; cbn [fst].
  destruct (selected_node_single_token (environ w)) as [Hs Hc].
  repeat split.
  - now apply contains_root_node_address.
  - now apply contains_root_node_address.
  - apply root_node_address_no_bracket.
Qed.

(** X4: [master_address] publishes what it returns: after the call
    [MASTER_ADDR] holds the returned address, whether or not it was set
    before, every other variable is as it was, and the debug log has gained
    the one message that shows the address. *)
Theorem master_address_publishes (w w' : World) (address : string) :
  master_address w = (Return address, w') ->
  environ w' !! "MASTER_ADDR" = Some address /\
  (forall name, name <> "MASTER_ADDR" ->
                environ w' !! name = environ w !! name) /\
  debug_log w' = (debug_log w ++ ["MASTER_ADDR: " +:+ address])%list.
Proof.
  rewrite master_address_run. intros [= <- <-]; cbn [environ debug_log].
  repeat split.
  - apply lookup_insert_eq.
  - intros name Hn. now rewrite lookup_insert_ne.
Qed.

(** A stale [MASTER_ADDR] is replaced. *)
Lemma master_address_publishes_witness :
  environ
    (snd (master_address
            (world_of [("SLURM_NODELIST", "n[3-4]"); ("MASTER_ADDR", "old")])))
    !! "MASTER_ADDR" = Some "n3".
Proof.
  exact (proj1
    (master_address_publishes
       (world_of [("SLURM_NODELIST", "n[3-4]"); ("MASTER_ADDR", "old")])
       (snd (master_address
               (world_of [("SLURM_NODELIST", "n[3-4]");
                          ("MASTER_ADDR", "old")])))
       "n3" eq_refl)).
Defined.

(** X5: the address depends on the node list alone: two processes whose
    environments agree on [SLURM_NODELIST] get the same address from
    [master_address], whatever their other variables (ranks, a previous
    [MASTER_ADDR]) are. *)
Theorem master_address_agreement (w1 w2 : World) :
  environ w1 !! "SLURM_NODELIST" = environ w2 !! "SLURM_NODELIST" ->
  fst (master_address w1) = fst (master_address w2).
Proof.
  intros H. rewrite !master_address_run; cbn [fst].
  unfold selected_node. now rewrite H.
Qed.

(** Two tasks of one job. *)
Lemma master_address_agreement_witness :
  fst (master_address
         (world_of [("SLURM_NODELIST", "n[3-4]"); ("SLURM_PROCID", "0")])) =
  fst (master_address
         (world_of [("SLURM_NODELIST", "n[3-4]"); ("SLURM_PROCID", "1");
                    ("MASTER_ADDR", "old")])).
Proof.
  exact (master_address_agreement
           (world_of [("SLURM_NODELIST", "n[3-4]"); ("SLURM_PROCID", "0")])
           (world_of [("SLURM_NODELIST", "n[3-4]"); ("SLURM_PROCID", "1");
                      ("MASTER_ADDR", "old")])
           eq_refl).
Defined.

(** ** More on the port *)

Lemma job_id_port_insert (vars : gmap string string) (name v : string) :
  name <> "SLURM_JOB_ID" ->
  job_id_port (<[name := v]> vars) = job_id_port vars.
Proof. intros H. unfold job_id_port. now rewrite lookup_insert_ne. Qed.

Lemma int_of_str_str_of_int (z : Z) : Py.int_of_str (Py.str_of_int z) = Return z.
Proof. unfold Py.int_of_str. now rewrite int_literal_str_of_int. Qed.

(** X6: the port depends on the job id and on [MASTER_PORT] alone: two
    processes whose environments agree on these two variables get the same
    outcome from [master_port]. *)
Theorem master_port_agreement (w1 w2 : World) :
  environ w1 !! "SLURM_JOB_ID" = environ w2 !! "SLURM_JOB_ID" ->
  environ w1 !! "MASTER_PORT" = environ w2 !! "MASTER_PORT" ->
  fst (master_port w1) = fst (master_port w2).
Proof.
  intros Hj Hp. rewrite !master_port_run. unfold job_id_port.
  rewrite Hj, Hp.
  destruct (environ w2 !! "SLURM_JOB_ID") as [j|];
    [destruct (Py.truthy j);
     [destruct (Py.int_of_str (Py.last_chars 4 j)); cbn [obind]|]|];
    try reflexivity;
    destruct (environ w2 !! "MASTER_PORT"); reflexivity.
Qed.

(** Two tasks of one job. *)
Lemma master_port_agreement_witness :
  fst (master_port
         (world_of [("SLURM_JOB_ID", "4242"); ("SLURM_PROCID", "0")])) =
  fst (master_port
         (world_of [("SLURM_JOB_ID", "4242"); ("SLURM_PROCID", "1")])).
Proof.
  exact (master_port_agreement
           (world_of [("SLURM_JOB_ID", "4242"); ("SLURM_PROCID", "0")])
           (world_of [("SLURM_JOB_ID", "4242"); ("SLURM_PROCID", "1")])
           eq_refl eq_refl).
Defined.

(** X7: a port once returned stays: when [master_port] has returned [p],
    calling it again on the world it left returns [p] again and leaves the
    environment untouched. *)
Theorem master_port_stable (w w' : World) (p : Z) :
  master_port w = (Return p, w') ->
  fst (master_port w') = Return p /\
  environ (snd (master_port w')) = environ w'.
Proof.
  rewrite (master_port_run w).
  destruct (job_id_port (environ w)) as [d|e] eqn:Hd; [|discriminate].
  destruct (environ w !! "MASTER_PORT") as [s|] eqn:Hs.
  - intros [= Hp <-]. rewrite master_port_run; cbn [environ].
    now rewrite Hd, Hs, Hp.
  - intros [= <- <-]. rewrite master_port_run; cbn [environ].
    rewrite job_id_port_insert by discriminate.
    rewrite Hd, lookup_insert_eq, int_of_str_str_of_int. split; reflexivity.
Qed.

(** The port of job 7, asked for twice. *)
Lemma master_port_stable_witness :
  fst (master_port (snd (master_port (world_of [("SLURM_JOB_ID", "7")])))) =
  Return 15007.
Proof.
  exact (proj1
    (master_port_stable
       (world_of [("SLURM_JOB_ID", "7")])
       (snd (master_port (world_of [("SLURM_JOB_ID", "7")])))
       15007 eq_refl)).
Defined.

(** X8: when [master_port] raises it has not touched the environment:
    nothing is published for a port that could not be resolved. *)
Theorem master_port_failure_publishes_nothing (w : World) :
  returns (fst (master_port w)) = false ->
  environ (snd (master_port w)) = environ w.
Proof.
  rewrite master_port_run.
  destruct (job_id_port (environ w)) as [d|e]; [|reflexivity].
  destruct (environ w !! "MASTER_PORT"); [reflexivity | discriminate].
Qed.

(** A job id that is not a number. *)
Lemma master_port_failure_publishes_nothing_witness :
  environ (snd (master_port (world_of [("SLURM_JOB_ID", "abcd")]))) =
  environ (world_of [("SLURM_JOB_ID", "abcd")]).
Proof.
  exact (master_port_failure_publishes_nothing
           (world_of [("SLURM_JOB_ID", "abcd")]) eq_refl).
Defined.

(** X9: the address and the port can be resolved in either order: each
    method returns what it returns on its own, and both orders leave the
    same environment. *)
Theorem master_address_port_commute (w : World) :
  fst (master_port (snd (master_address w))) = fst (master_port w) /\
  fst (master_address (snd (master_port w))) = fst (master_address w) /\
  environ (snd (master_port (snd (master_address w)))) =
  environ (snd (master_address (snd (master_port w)))).
Proof.
  rewrite (master_address_run w); cbn [snd].
  rewrite (master_port_run w), !master_port_run; cbn [environ].
  rewrite job_id_port_insert by discriminate.
  rewrite lookup_insert_ne by discriminate.
  destruct (job_id_port (environ w)) as [d|e]; cbn [fst snd].
  - destruct (environ w !! "MASTER_PORT") as [s|]; cbn [fst snd];
      rewrite master_address_run; cbn [fst snd environ].
    + repeat split.
    + unfold selected_node. rewrite lookup_insert_ne by discriminate.
      repeat split. apply insert_insert_ne. discriminate.
  - rewrite master_address_run; cbn [fst snd environ]. repeat split.
Qed.

(** ** The range of the derived port *)

Lemma digit_value_range (c : ascii) :
  Py.is_digit c = true -> 0 <= Py.digit_value c <= 9.
Proof.
  unfold Py.is_digit, Py.digit_value. intros H.
  apply andb_true_iff in H as [H1 H2]. apply Nat.leb_le in H1, H2. lia.
Qed.

Lemma digits_value_bounds (s : string) :
  forall (acc : Z) (after_digit : bool) (v : Z),
    0 <= acc ->
    Py.digits_value s acc after_digit = Some v ->
    acc <= v /\ v + 1 <= (acc + 1) * 10 ^ Z.of_nat (String.length s).
Proof.
  induction s as [|c s IH]; intros acc b v Hacc H; simpl in H.
  - destruct b; [|discriminate]. injection H as <-. simpl. lia.
  - assert (HP : 0 < 10 ^ Z.of_nat (String.length s))
      by (apply Z.pow_pos_nonneg; lia).
    cbn [String.length]. rewrite Nat2Z.inj_succ, Z.pow_succ_r by lia.
    destruct (Ascii.eqb c "_").
    + destruct b; [|discriminate].
      apply IH in H as [H1 H2]; [|assumption]. nia.
    + destruct (Py.is_digit c) eqn:Hd; [|discriminate].
      pose proof (digit_value_range c Hd) as Hr.
      apply IH in H as [H1 H2]; [|lia]. nia.
Qed.

Lemma int_literal_cases (s : string) :
  Py.int_literal s =
  match Py.strip s with
  | EmptyString => None
  | String c r =>
      if Ascii.eqb c "+" then Py.digits_value r 0 false
      else if Ascii.eqb c "-" then Z.opp <$> Py.digits_value r 0 false
      else Py.digits_value (String c r) 0 false
  end.
Proof.
  unfold Py.int_literal. destruct (Py.strip s) as [|c r]; [reflexivity|].
  destruct c as [[] [] [] [] [] [] [] []]; reflexivity.
Qed.

Lemma length_lstrip (s : string) :
  (String.length (Py.lstrip s) <= String.length s)%nat.
Proof.
  induction s as [|c s IH]; simpl; [lia|].
  destruct (Py.is_space c); simpl; lia.
Qed.

Lemma length_rstrip (s : string) :
  (String.length (Py.rstrip s) <= String.length s)%nat.
Proof.
  induction s as [|c s IH]; simpl; [lia|].
  destruct (Py.rstrip s); [destruct (Py.is_space c)|]; simpl in *; lia.
Qed.

Lemma length_strip (s : string) :
  (String.length (Py.strip s) <= String.length s)%nat.
Proof.
  unfold Py.strip. pose proof (length_rstrip (Py.lstrip s)).
  pose proof (length_lstrip s). lia.
Qed.

Lemma length_drop (n : nat) (s : string) :
  String.length (Py.drop n s) = (String.length s - n)%nat.
Proof.
  revert s; induction n as [|n IH]; intros [|c s]; simpl; try lia.
  apply IH.
Qed.

Lemma length_last_chars (n : nat) (s : string) :
  (String.length (Py.last_chars n s) <= n)%nat.
Proof. unfold Py.last_chars. rewrite length_drop. lia. Qed.

Lemma pow10_le (n m : nat) : (n <= m)%nat -> 10 ^ Z.of_nat n <= 10 ^ Z.of_nat m.
Proof. intros H. apply Z.pow_le_mono_r; lia. Qed.

(** An integer literal of at most four characters lies between -999 and
    9999. *)
Lemma int_literal_short (s : string) (v : Z) :
  (String.length s <= 4)%nat ->
  Py.int_literal s = Some v ->
  -999 <= v <= 9999.
Proof.
  intros Hlen. rewrite int_literal_cases. pose proof (length_strip s) as Hs.
  destruct (Py.strip s) as [|c r]; [discriminate|]. cbn [String.length] in Hs.
  assert (H3 : 10 ^ Z.of_nat (String.length r) <= 10 ^ Z.of_nat 3)
    by (apply pow10_le; lia).
  assert (H4 : 10 ^ Z.of_nat (String.length (String c r)) <= 10 ^ Z.of_nat 4)
    by (apply pow10_le; cbn [String.length]; lia).
  change (10 ^ Z.of_nat 3) with 1000 in H3.
  change (10 ^ Z.of_nat 4) with 10000 in H4.
  destruct (Ascii.eqb c "+"); [|destruct (Ascii.eqb c "-")].
  - intros H. apply digits_value_bounds in H; lia.
  - destruct (Py.digits_value r 0 false) as [u|] eqn:Hu; [|discriminate].
    intros [= <-]. apply digits_value_bounds in Hu; lia.
  - intros H. apply digits_value_bounds in H; lia.
Qed.

Section NoDash.

Variable c : ascii.

Lemma contains_drop (n : nat) (s : string) :
  Py.contains c s = false -> Py.contains c (Py.drop n s) = false.
Proof.
  revert s; induction n as [|n IH]; intros [|x s]; simpl; auto.
  destruct (Ascii.eqb x c); [discriminate | apply IH].
Qed.

Lemma contains_lstrip (s : string) :
  Py.contains c s = false -> Py.contains c (Py.lstrip s) = false.
Proof.
  induction s as [|x s IH]; simpl; [reflexivity|].
  destruct (Ascii.eqb x c) eqn:E; [discriminate|]. intros H.
  destruct (Py.is_space x); [exact (IH H) | simpl; now rewrite E].
Qed.

Lemma contains_rstrip (s : string) :
  Py.contains c s = false -> Py.contains c (Py.rstrip s) = false.
Proof.
  induction s as [|x s IH]; simpl; [reflexivity|].
  destruct (Ascii.eqb x c) eqn:E; [discriminate|]. intros H.
  specialize (IH H).
  destruct (Py.rstrip s); [destruct (Py.is_space x)|]; simpl in *;
    rewrite ?E; auto.
Qed.

End NoDash.

(** Without a dash an integer literal is not negative. *)
Lemma int_literal_no_dash (s : string) (v : Z) :
  Py.contains "-" s = false -> Py.int_literal s = Some v -> 0 <= v.
Proof.
  intros Hs. rewrite int_literal_cases.
  assert (Ht : Py.contains "-" (Py.strip s) = false)
    by (apply contains_rstrip, contains_lstrip, Hs).
  destruct (Py.strip s) as [|x r]; [discriminate|]. simpl in Ht.
  destruct (Ascii.eqb x "+"); [|destruct (Ascii.eqb x "-"); [discriminate|]];
    intros H; apply digits_value_bounds in H; lia.
Qed.

(** X10: a port derived from the job id lies between 14001 and 24999, so it
    is a valid port number above ten thousand, as the source asks of all
    ports; when the job id has no dash in it the port is at least 15000. *)
Theorem master_port_job_id_range (w : World) (job_id : string) (p : Z) :
  environ w !! "MASTER_PORT" = None ->
  environ w !! "SLURM_JOB_ID" = Some job_id ->
  job_id <> EmptyString ->
  fst (master_port w) = Return p ->
  14001 <= p <= 24999 /\
  (Py.contains "-" job_id = false -> 15000 <= p).
Proof.
  intros Hp Hj Hne. rewrite master_port_run. unfold job_id_port.
  rewrite Hj, Hp.
  assert (Ht : Py.truthy job_id = true) by (destruct job_id; [congruence | reflexivity]).
  rewrite Ht. unfold Py.int_of_str.
  destruct (Py.int_literal (Py.last_chars 4 job_id)) as [v|] eqn:Hv;
    [|discriminate].
  cbn [obind fst]. intros [= <-].
  pose proof (int_literal_short _ v (length_last_chars 4 job_id) Hv).
  split; [lia|]. intros Hd.
  assert (0 <= v); [|lia].
  apply (int_literal_no_dash (Py.last_chars 4 job_id)); [|assumption].
  now apply contains_drop.
Qed.

(** The largest suffix. *)
Lemma master_port_job_id_range_witness :
  14001 <= 24999 <= 24999 /\
  (Py.contains "-" "1239999" = false -> 15000 <= 24999).
Proof.
  exact (master_port_job_id_range
           (world_of [("SLURM_JOB_ID", "1239999")]) "1239999" 24999
           eq_refl eq_refl ltac:(discriminate) eq_refl).
Defined.

(** ** More on the readers *)

(** X11: each of the four readers returns [n] exactly when its variable is
    present and is an integer literal of value [n], and it never changes the
    environment or the log, whether it returns or raises. *)
Theorem identity_reader_returns
    (name : string) (reader : py Z) (w : World) (n : Z) :
  In (name, reader) identity_readers ->
  (fst (reader w) = Return n <-> parsed (environ w) name = Some n) /\
  snd (reader w) = w.
Proof.
  intros H. rewrite (identity_reader_run name reader w H); cbn [fst snd].
  split; [|reflexivity]. unfold parsed, Py.int_of_str.
  destruct (environ w !! name) as [v|]; [|split; discriminate].
  destruct (Py.int_literal v); split; congruence.
Qed.

(** A padded, signed value is read as the integer it denotes. *)
Lemma identity_reader_returns_witness :
  fst (local_rank (world_of [("SLURM_LOCALID", " +1_2 ")])) = Return 12.
Proof.
  exact (proj2 (proj1
    (identity_reader_returns "SLURM_LOCALID" local_rank
       (world_of [("SLURM_LOCALID", " +1_2 ")]) 12
       (or_intror (or_intror (or_introl eq_refl)))))
    eq_refl).
Defined.

(** X12: resolving the address or the port does not disturb the identity:
    each of the four readers, called after [master_address] or after
    [master_port], whether that call returned or raised, gives the outcome
    it gives without the call. *)
Theorem identity_survives_rendezvous
    (name : string) (reader : py Z) (w : World) :
  In (name, reader) identity_readers ->
  fst (reader (snd (master_address w))) = fst (reader w) /\
  fst (reader (snd (master_port w))) = fst (reader w).
Proof.
  intros H. rewrite !(identity_reader_run name reader _ H).
  rewrite master_address_run, master_port_run; cbn [fst snd environ].
  assert (Ha : name <> "MASTER_ADDR" /\ name <> "MASTER_PORT").
  { repeat (destruct H as [[= <- <-] | H]; [split; discriminate|]).
    destruct H. }
  destruct Ha as [Ha Hp]. split.
  - now rewrite lookup_insert_ne by congruence.
  - destruct (job_id_port (environ w)); [|reflexivity].
    destruct (environ w !! "MASTER_PORT"); cbn [snd environ];
      [reflexivity | now rewrite lookup_insert_ne by congruence].
Qed.

(** The node rank, read after the port has been published. *)
Lemma identity_survives_rendezvous_witness :
  fst (node_rank
         (snd (master_port
                 (world_of [("SLURM_JOB_ID", "7"); ("SLURM_NODEID", "3")]))))
  = fst (node_rank (world_of [("SLURM_JOB_ID", "7"); ("SLURM_NODEID", "3")])).
Proof.
  exact (proj2
    (identity_survives_rendezvous "SLURM_NODEID" node_rank
       (world_of [("SLURM_JOB_ID", "7"); ("SLURM_NODEID", "3")])
       (or_intror (or_intror (or_intror (or_introl eq_refl)))))).
Defined.

(** ** What the bracketed part contributes *)

Lemma all_digits_sub_non_digits (s : string) :
  all_digits (Py.sub_non_digits s) = true.
Proof.
  induction s as [|c s IH]; simpl; [reflexivity|].
  destruct (Py.is_digit c) eqn:Hc; [simpl; now rewrite Hc | exact IH].
Qed.

Lemma length_sub_non_digits (s : string) :
  (String.length (Py.sub_non_digits s) <= String.length s)%nat.
Proof.
  induction s as [|c s IH]; simpl; [lia|].
  destruct (Py.is_digit c); simpl; lia.
Qed.

Lemma length_before (c : ascii) (s : string) :
  (String.length (Py.before c s) <= String.length s)%nat.
Proof.
  induction s as [|x s IH]; simpl; [lia|].
  destruct (Ascii.eqb x c); simpl; lia.
Qed.

(** X13: of a name with an opening bracket, [resolve_root_node_address]
    keeps the text before the first bracket and adds decimal digits only,
    no more of them than there are characters after the bracket: any other
    text there, a domain suffix after the closing bracket included, is
    lost. *)
Theorem resolve_root_node_address_digits_only (root_node : string) :
  Py.contains "[" root_node = true ->
  exists digits,
    resolve_root_node_address root_node =
    Return (Py.before "[" root_node +:+ digits) /\
    all_digits digits = true /\
    (String.length digits <= String.length (Py.after "[" root_node))%nat.
Proof.
  intros H. rewrite resolve_root_node_address_eq, H.
  eexists. split; [reflexivity|]. split.
  - apply all_digits_sub_non_digits.
  - etransitivity; [apply length_sub_non_digits|].
    etransitivity; apply length_before.
Qed.

(** The suffix of a fully qualified name is dropped. *)
Lemma resolve_root_node_address_digits_only_witness :
  exists digits,
    resolve_root_node_address "gpu[2-3].cluster.org" =
    Return (Py.before "[" "gpu[2-3].cluster.org" +:+ digits) /\
    all_digits digits = true /\
    (String.length digits <=
     String.length (Py.after "[" "gpu[2-3].cluster.org"))%nat.
Proof.
  exact (resolve_root_node_address_digits_only "gpu[2-3].cluster.org" eq_refl).
Defined.
